(** * A shallow embedding of the island utility package

    The embedding covers [Optional] (core/utils/optional.util.ts),
    [BrandStructure] (branded-type/brand.struct.ts), [StrictType]
    (core/strict-type/strict-type.struct.ts) and the exception classes they
    throw (exception/*.ts).

    JavaScript runtime values are first-order ([JsVal]); caller-supplied
    callbacks are Rocq functions returning a [Completion] (a normal result or
    a thrown exception), wrapped in [Nullable] because every callback argument
    may be [null] or [undefined] at runtime.  Methods that invoke callbacks
    run in a small state/exception monad [JsM] whose state records the
    callbacks invoked, so that "without invoking the mapper" is observable. *)

From Stdlib Require Import String List ZArith Lia Permutation.
Import ListNotations.
Open Scope Z_scope.
Open Scope string_scope.

(** ** Runtime values *)

Inductive JsVal : Type :=
| JUndefined
| JNull
| JBool (b : bool)
| JNum (n : Z)
| JStr (s : string).

(** [isNil] from is-nil.util.ts: [value == null], true for [null] and
    [undefined] only. *)
Definition isNil (v : JsVal) : bool :=
  match v with
  | JUndefined | JNull => true
  | _ => false
  end.

(** A callback argument as received at runtime: [undefined], [null] or an
    actual function. *)
Inductive Nullable (A : Type) : Type :=
| NUndefined
| NNull
| NSome (a : A).
Arguments NUndefined {A}.
Arguments NNull {A}.
Arguments NSome {A} a.

Definition isNilN {A} (x : Nullable A) : bool :=
  match x with
  | NUndefined | NNull => true
  | NSome _ => false
  end.

(** JS strict equality [===] on the modelled values. *)
Definition strict_equals (a b : JsVal) : bool :=
  match a, b with
  | JUndefined, JUndefined => true
  | JNull, JNull => true
  | JBool x, JBool y => Bool.eqb x y
  | JNum x, JNum y => Z.eqb x y
  | JStr x, JStr y => String.eqb x y
  | _, _ => false
  end.

(** ** Exceptions (exception/*.ts) *)

Inductive ExnClass : Type :=
| Exception
| RuntimeException
| NilArgumentException
| NoSuchElementException
| AssertionException
(** the built-in [TypeError], raised by the runtime itself *)
| TypeError
(** any other value thrown by caller-supplied code, tagged by its name *)
| ThrownByCaller (tag : string).

(** The [extends] chain of each class, the class itself first. *)
Definition ancestors (c : ExnClass) : list ExnClass :=
  match c with
  | Exception => [Exception]
  | RuntimeException => [RuntimeException; Exception]
  | NilArgumentException => [NilArgumentException; Exception]
  | NoSuchElementException => [NoSuchElementException; RuntimeException; Exception]
  | AssertionException => [AssertionException; Exception]
  | TypeError => [TypeError]
  | ThrownByCaller t => [ThrownByCaller t]
  end.

Record Exn : Type := mkExn {
  exn_class : ExnClass;
  exn_message : string
}.

(** Constructors with the default messages of the source. *)
Definition new_NilArgumentException : Exn :=
  mkExn NilArgumentException "Passed null or undefined".
Definition new_NoSuchElementException : Exn :=
  mkExn NoSuchElementException "Element being requested does not exist".
Definition new_RuntimeException (message : string) : Exn :=
  mkExn RuntimeException message.
Definition new_AssertionException (message : string) : Exn :=
  mkExn AssertionException message.
Definition new_TypeError (message : string) : Exn :=
  mkExn TypeError message.

(** ** Completions and the effect monad *)

Inductive Completion (A : Type) : Type :=
| Normal (a : A)
| Throw (e : Exn).
Arguments Normal {A} a.
Arguments Throw {A} e.

(** State threaded through a computation; it survives a throw, as in JS. *)
Definition JsM (S A : Type) : Type := S -> Completion A * S.

Definition ret {S A} (a : A) : JsM S A := fun s => (Normal a, s).
Definition throw {S A} (e : Exn) : JsM S A := fun s => (Throw e, s).
Definition bind {S A B} (m : JsM S A) (k : A -> JsM S B) : JsM S B :=
  fun s => match m s with
           | (Normal a, s') => k a s'
           | (Throw e, s') => (Throw e, s')
           end.

Notation "x <- m ;; k" := (bind m (fun x => k))
  (at level 61, m at next level, right associativity).
Notation "m ;;; k" := (bind m (fun _ => k))
  (at level 61, right associativity).

(** Lift a pure completion into the monad. *)
Definition complete {S A} (c : Completion A) : JsM S A := fun s => (c, s).

(** [try { body } catch (e) { handler } finally { fin }]: an abrupt
    completion of [fin] overrides the completion of the try/catch part. *)
Definition try_catch_finally {S A} (body : JsM S A) (handler : Exn -> JsM S A)
    (fin : JsM S unit) : JsM S A :=
  fun s =>
    let '(c1, s1) := body s in
    let '(c2, s2) := match c1 with
                     | Normal a => (Normal a, s1)
                     | Throw e => handler e s1
                     end in
    let '(c3, s3) := fin s2 in
    match c3 with
    | Normal _ => (c2, s3)
    | Throw e => (Throw e, s3)
    end.

(** ** Observable callback invocations *)

Inductive Callback : Type :=
| CbAction | CbEmptyAction | CbPredicate | CbMapper | CbSupplier
| CbExceptionSupplier.

Inductive Event : Type :=
| Invoked (cb : Callback) (args : list JsVal).

Definition Trace : Type := list Event.

(** Call a callback: record the call, then complete as the callback did. *)
Definition invoke {A} (cb : Callback) (args : list JsVal) (c : Completion A)
    : JsM Trace A :=
  fun tr => (c, (tr ++ [Invoked cb args])%list).

(** Local variables of a method body live next to the trace. *)
Definition lift {L A} (m : JsM Trace A) : JsM (Trace * L) A :=
  fun '(tr, l) => let '(c, tr') := m tr in (c, (tr', l)).
Definition set_local {L} (l : L) : JsM (Trace * L) unit :=
  fun '(tr, _) => (Normal tt, (tr, l)).
Definition get_local {L} : JsM (Trace * L) L :=
  fun '(tr, l) => (Normal l, (tr, l)).
(** Run a block that declares one local variable initialised to [init]. *)
Definition with_local {L A} (init : L) (m : JsM (Trace * L) A) : JsM Trace A :=
  fun tr => let '(c, (tr', _)) := m (tr, init) in (c, tr').

(** ** The [Optional] class (core/utils/optional.util.ts) *)

Module Optional.

(** An instance holds its private slot [#value : Nullable<T>].  The
    constructor is public, so any runtime value may sit in the slot. *)
Record Optional : Type := mkOptional { value : JsVal }.

Definition empty : Optional := mkOptional JNull.

Definition of (v : JsVal) : Completion Optional :=
  if isNil v then Throw new_NilArgumentException else Normal (mkOptional v).

Definition ofNullable (v : JsVal) : Completion Optional :=
  if isNil v then Normal empty else Normal (mkOptional v).

Definition get (o : Optional) : Completion JsVal :=
  if isNil (value o) then Throw new_NoSuchElementException
  else Normal (value o).

Definition isPresent (o : Optional) : bool := negb (isNil (value o)).

Definition ifPresent (o : Optional) (action : Nullable (JsVal -> Completion unit))
    : JsM Trace unit :=
  if negb (isNil (value o)) then
    match action with
    | NSome f => invoke CbAction [value o] (f (value o))
    | _ => throw new_NilArgumentException
    end
  else ret tt.

Definition ifPresentOrElse (o : Optional)
    (action : Nullable (JsVal -> Completion unit))
    (emptyAction : Nullable (JsVal -> Completion unit)) : JsM Trace unit :=
  if negb (isNil (value o)) then
    match action with
    | NSome f => invoke CbAction [value o] (f (value o))
    | _ => throw new_NilArgumentException
    end
  else
    match emptyAction with
    | NSome f => invoke CbEmptyAction [value o] (f (value o))
    | _ => throw new_NilArgumentException
    end.

Definition filter (o : Optional) (predicate : Nullable (JsVal -> Completion bool))
    : JsM Trace Optional :=
  match predicate with
  | NSome p =>
      (* [!isNil(this.#value) && predicate(this.#value)] short-circuits *)
      if negb (isNil (value o)) then
        b <- invoke CbPredicate [value o] (p (value o)) ;;
        (if b then ret (mkOptional (value o)) else ret empty)
      else ret empty
  | _ => throw new_NilArgumentException
  end.

Definition map (o : Optional) (mapper : Nullable (JsVal -> Completion JsVal))
    : JsM Trace Optional :=
  match mapper with
  | NSome f =>
      if negb (isNil (value o)) then
        result <- invoke CbMapper [value o] (f (value o)) ;;
        complete (ofNullable result)
      else ret empty
  | _ => throw new_NilArgumentException
  end.

(** The mapper of [flatMap] returns an [Optional] or, at runtime, possibly
    [null]/[undefined]. *)
Definition flatMap (o : Optional)
    (mapper : Nullable (JsVal -> Completion (Nullable Optional)))
    : JsM Trace Optional :=
  match mapper with
  | NSome f =>
      if negb (isNil (value o)) then
        result <- invoke CbMapper [value o] (f (value o)) ;;
        match result with
        | NSome r => ret r
        | _ => ret empty
        end
      else ret empty
  | _ => throw new_NilArgumentException
  end.

Definition or (o : Optional)
    (supplier : Nullable (unit -> Completion (Nullable Optional)))
    : JsM Trace Optional :=
  match supplier with
  | NSome s =>
      result <- (if isPresent o then ret (NSome o)
                 else invoke CbSupplier [] (s tt)) ;;
      match result with
      | NSome r => ret r
      | _ => throw new_NilArgumentException
      end
  | _ => throw new_NilArgumentException
  end.

Definition orElse (o : Optional) (other : JsVal) : JsVal :=
  if isPresent o then value o else other.

Definition orElseGet (o : Optional) (supplier : Nullable (unit -> Completion JsVal))
    : JsM Trace JsVal :=
  if (negb (isPresent o) && isNilN supplier)%bool then throw new_NilArgumentException
  else if isPresent o then ret (value o)
  else
    match supplier with
    | NSome s => invoke CbSupplier [] (s tt)
    (* not reached: the guard above has thrown already *)
    | _ => throw new_NilArgumentException
    end.

(** Both overloads: the zero-argument call passes [undefined].  The body of
    the [if (!isNil(exceptionSupplier))] block declares the local
    [isSupplierThrowable], initially [false]. *)
Definition orElseThrow (o : Optional)
    (exceptionSupplier : Nullable (unit -> Completion unit)) : JsM Trace JsVal :=
  if isNil (value o) then
    (match exceptionSupplier with
     | NSome f =>
         with_local false
           (try_catch_finally
              (lift (invoke CbExceptionSupplier [] (f tt)))
              (fun e => set_local true ;;; throw e)
              (isSupplierThrowable <- get_local ;;
               if negb isSupplierThrowable
               then throw (new_RuntimeException "Supplier is not throwable")
               else ret tt))
     | _ => ret tt
     end) ;;;
    throw new_NoSuchElementException
  else ret (value o).

(** [equals(obj)]: [obj instanceof Optional && ((!this.isPresent &&
    !obj.isPresent) || this.#value === obj.#value)]; at runtime [obj] may be
    [null] or [undefined], which are not instances of [Optional]. *)
Definition equals (o : Optional) (obj : Nullable Optional) : bool :=
  match obj with
  | NSome o' =>
      ((negb (isPresent o) && negb (isPresent o')) || strict_equals (value o) (value o'))%bool
  | _ => false
  end.

End Optional.


(** ** Nominal-typing guards *)

(** [BrandValidator<T>] and [StrictValidator<T>]:
    [(value: T) => boolean | string].  A call of the caller-supplied
    validator returns such a result or throws, so it is modelled as a
    function into [Completion ValidatorResult]. *)
Inductive ValidatorResult : Type :=
| VBool (b : bool)
| VText (s : string).

(** [ToString] of a JS integer number, as used by a template literal. *)
Definition digit_char (d : Z) : Ascii.ascii := Ascii.ascii_of_nat (48 + Z.to_nat d)%nat.

Fixpoint nat_digits (fuel : nat) (n : Z) (acc : string) : string :=
  match fuel with
  | O => acc
  | S fuel' =>
      let acc' := String (digit_char (Z.modulo n 10)) acc in
      if Z.ltb n 10 then acc' else nat_digits fuel' (Z.div n 10) acc'
  end.

Definition number_to_string (n : Z) : string :=
  let digits := nat_digits (S (Z.to_nat (Z.log2 (Z.abs n)))) (Z.abs n) "" in
  if Z.ltb n 0 then "-" ++ digits else digits.

(** The substitution [`${value}`] of a template literal applies [ToString]
    to the value, which may throw: a [TypeError] for a symbol, or whatever a
    [toString] method of an object throws.  It is modelled as a function into
    [Completion string]. *)

(** The template-literal [ToString] of numbers. *)
Definition num_display (n : Z) : Completion string := Normal (number_to_string n).

(** Primitive base values with a symbol among them. *)
Inductive Prim : Type :=
| PNum (n : Z)
| PSymbol (description : string).

(** [ToString] on them: a symbol throws a [TypeError]. *)
Definition template_string (p : Prim) : Completion string :=
  match p with
  | PNum n => Normal (number_to_string n)
  | PSymbol _ => Throw (new_TypeError "Cannot convert a Symbol value to a string")
  end.

Module BrandStructure.

(** [BrandStructure<TBrand, TBase>] holds its private [#validator]. *)
Record BrandStructure (TBase : Type) : Type :=
  mkBrandStructure { validator : TBase -> Completion ValidatorResult }.
Arguments mkBrandStructure {TBase} validator.
Arguments validator {TBase} b _.

Section Methods.
Variable TBase : Type.
(** [`${value}`] on base values. *)
Variable display : TBase -> Completion string.

(** [this.#validator(value) === true] *)
Definition is (b : BrandStructure TBase) (value : TBase) : Completion bool :=
  match validator b value with
  | Normal (VBool true) => Normal true
  | Normal _ => Normal false
  | Throw e => Throw e
  end.

Definition assert (b : BrandStructure TBase) (value : TBase) : Completion unit :=
  match validator b value with
  | Throw e => Throw e
  | Normal (VText r) => Throw (new_AssertionException r)
  | Normal (VBool false) =>
      (* the message is built before the exception is constructed *)
      match display value with
      | Normal text => Throw (new_AssertionException ("Invalid value " ++ text))
      | Throw e => Throw e
      end
  | Normal (VBool true) => Normal tt
  end.

Definition identity (b : BrandStructure TBase) (value : TBase) : Completion TBase :=
  match assert b value with
  | Normal _ => Normal value
  | Throw e => Throw e
  end.

End Methods.
End BrandStructure.

Module StrictType.

(** [StrictType<TStrict, TBase>] holds its private [#validator]. *)
Record StrictType (TBase : Type) : Type :=
  mkStrictType { validator : TBase -> Completion ValidatorResult }.
Arguments mkStrictType {TBase} validator.
Arguments validator {TBase} s _.

Section Methods.
Variable TBase : Type.
Variable display : TBase -> Completion string.

Definition is (s : StrictType TBase) (value : TBase) : Completion bool :=
  match validator s value with
  | Normal (VBool true) => Normal true
  | Normal _ => Normal false
  | Throw e => Throw e
  end.

Definition assert (s : StrictType TBase) (value : TBase) : Completion unit :=
  match validator s value with
  | Throw e => Throw e
  | Normal (VText r) => Throw (new_AssertionException r)
  | Normal (VBool false) =>
      match display value with
      | Normal text => Throw (new_AssertionException ("Invalid value " ++ text))
      | Throw e => Throw e
      end
  | Normal (VBool true) => Normal tt
  end.

Definition identity (s : StrictType TBase) (value : TBase) : Completion TBase :=
  match assert s value with
  | Normal _ => Normal value
  | Throw e => Throw e
  end.

End Methods.
End StrictType.

Definition nonPositive : Z -> Completion ValidatorResult :=
  fun x => Normal (VBool (Z.leb x 0)).

(** A validator whose call throws, as [s => { JSON.parse(s); return true; }]
    does on malformed input: the exception escapes the validator. *)
Definition throwing_validator : string -> Completion ValidatorResult :=
  fun _ => Throw (mkExn (ThrownByCaller "SyntaxError") "malformed JSON").

Example number_to_string_1 : number_to_string 1 = "1".
Proof. reflexivity. Qed.
Example number_to_string_neg : number_to_string (-120)%Z = "-120".
Proof. reflexivity. Qed.
Example strict_nonPositive_1 :
  StrictType.assert Z num_display (StrictType.mkStrictType nonPositive) 1
  = Throw (mkExn AssertionException "Invalid value 1").
Proof. reflexivity. Qed.
Example optional_map_null :
  fst (Optional.map (Optional.mkOptional (JNum 1)) (NSome (fun _ => Normal JNull)) [])
  = Normal Optional.empty.
Proof. reflexivity. Qed.
Example orElseThrow_returning_supplier :
  fst (Optional.orElseThrow Optional.empty (NSome (fun _ => Normal tt)) [])
  = Throw (new_RuntimeException "Supplier is not throwable").
Proof. reflexivity. Qed.
Example orElseThrow_throwing_supplier :
  fst (Optional.orElseThrow Optional.empty
         (NSome (fun _ => Throw (mkExn (ThrownByCaller "E") "boom"))) [])
  = Throw (mkExn (ThrownByCaller "E") "boom").
Proof. reflexivity. Qed.

(** ** The older [Optional] variant (core/utils/optional.util.ts)

    Same single-slot class shape as above, so the record is shared; only the
    methods whose bodies differ from the canonical class are embedded. *)

Module OptionalUtil.

Definition empty : Optional.Optional := Optional.mkOptional JNull.

(** [ofNullable] stores its argument as it is, [undefined] included. *)
Definition ofNullable (v : JsVal) : Completion Optional.Optional :=
  Normal (Optional.mkOptional v).

Definition get (o : Optional.Optional) : Completion JsVal :=
  if isNil (Optional.value o) then Throw new_NoSuchElementException
  else Normal (Optional.value o).

Definition isPresent (o : Optional.Optional) : bool :=
  negb (isNil (Optional.value o)).

(** [map] checks the mapper's result itself instead of going through
    [ofNullable]. *)
Definition map (o : Optional.Optional) (mapper : Nullable (JsVal -> Completion JsVal))
    : JsM Trace Optional.Optional :=
  match mapper with
  | NSome f =>
      if negb (isNil (Optional.value o)) then
        result <- invoke CbMapper [Optional.value o] (f (Optional.value o)) ;;
        (if negb (isNil result) then ret (Optional.mkOptional result) else ret empty)
      else ret empty
  | _ => throw new_NilArgumentException
  end.

End OptionalUtil.

(** ** [Duration] (duration/duration.class.ts)

    JS numbers are modelled by integers: the model covers integer inputs
    whose results stay safe integers (below 2^53 in magnitude), where
    [*], [+] and [%] on numbers are exact and [Math.floor(a / b)] equals the
    floor division [Z.div a b]. *)

Module Duration.

Definition HOURS_PER_DAY : Z := 24.
Definition MINUTES_PER_HOUR : Z := 60.
Definition MINUTES_PER_DAY : Z := MINUTES_PER_HOUR * HOURS_PER_DAY.
Definition SECONDS_PER_MINUTE : Z := 60.
Definition SECONDS_PER_HOUR : Z := SECONDS_PER_MINUTE * MINUTES_PER_HOUR.
Definition SECONDS_PER_DAY : Z := SECONDS_PER_HOUR * HOURS_PER_DAY.
Definition MILISECONDS_PER_SECOND : Z := 1000.
Definition MILISECONDS_PER_MINUTE : Z := MILISECONDS_PER_SECOND * SECONDS_PER_MINUTE.
Definition MILISECONDS_PER_HOUR : Z := MILISECONDS_PER_MINUTE * MINUTES_PER_HOUR.
Definition MILISECONDS_PER_DAY : Z := MILISECONDS_PER_HOUR * HOURS_PER_DAY.

(** The private [#count] of milliseconds. *)
Record Duration : Type := mkDuration { count : Z }.

(** [DurationInput]: the own enumerable properties of the object, in
    [for...in] order, each [Nullable<number>]. *)
Definition DurationInput : Type := list (string * Nullable Z).

Inductive DurationArg : Type :=
| ArgNumber (input : Z)
| ArgInput (input : DurationInput).

(** [if (duration)]: a number is truthy unless it is [0]. *)
Definition truthy (duration : Nullable Z) : option Z :=
  match duration with
  | NSome d => if Z.eqb d 0 then None else Some d
  | _ => None
  end.

(** One iteration of the [for...in] loop of the constructor. *)
Definition add_entry (count : Z) (entry : string * Nullable Z) : Z :=
  let '(durationName, duration) := entry in
  match truthy duration with
  | Some d =>
      if String.eqb durationName "days" then count + d * MILISECONDS_PER_DAY
      else if String.eqb durationName "hours" then count + d * MILISECONDS_PER_HOUR
      else if String.eqb durationName "minutes" then count + d * MILISECONDS_PER_MINUTE
      else if String.eqb durationName "seconds" then count + d * MILISECONDS_PER_SECOND
      else count + d
  | None => count
  end.

Definition new (input : DurationArg) : Duration :=
  match input with
  | ArgNumber n => mkDuration n
  | ArgInput l => mkDuration (fold_left add_entry l 0)
  end.

Definition ZERO : Duration := new (ArgNumber 0).

Definition inMiliseconds (d : Duration) : Z := count d.

(** On an integer count [c % 1000] is an integer, so the [Math.floor]
    around the milliseconds field leaves it as it is. *)
Definition toString (d : Duration) : string :=
  let c := count d in
  let hours := Z.div c MILISECONDS_PER_HOUR in
  let minutes := Z.div (Z.rem c MILISECONDS_PER_HOUR) MILISECONDS_PER_MINUTE in
  let seconds := Z.div (Z.rem c MILISECONDS_PER_MINUTE) MILISECONDS_PER_SECOND in
  let milliseconds := Z.rem c MILISECONDS_PER_SECOND in
  number_to_string hours ++ ":" ++ number_to_string minutes ++ ":" ++
  number_to_string seconds ++ "." ++ number_to_string milliseconds.

End Duration.

(** ** [Timer] (timer.class.ts)

    The host's timer primitives are modelled by a table of scheduled
    callbacks with positive ids (truthy, as in browsers and Node).  The world
    is one [Timer] instance and the host; the timer's [#action] is opaque, so
    only whether it throws matters. *)

Module Timer.

Inductive TimerKind : Type := KTimeout | KInterval.

Record Host : Type := mkHost {
  last_id : nat;
  scheduled : list (nat * TimerKind * Z)
}.

Definition schedule (kind : TimerKind) (delay : Z) (h : Host) : nat * Host :=
  let id := S (last_id h) in
  (id, mkHost id (scheduled h ++ [(id, kind, delay)])%list).

Definition setTimeout (delay : Z) (h : Host) : nat * Host := schedule KTimeout delay h.
Definition setInterval (delay : Z) (h : Host) : nat * Host := schedule KInterval delay h.

Definition clear (id : nat) (h : Host) : Host :=
  mkHost (last_id h)
    (List.filter (fun '(i, _, _) => negb (Nat.eqb i id)) (scheduled h)).
Definition clearTimeout (id : nat) (h : Host) : Host := clear id h.
Definition clearInterval (id : nat) (h : Host) : Host := clear id h.

(** The constructor's [number | Duration] argument. *)
Inductive TimerDuration : Type :=
| DNumber (n : Z)
| DDuration (d : Duration.Duration).

Record Timer : Type := mkTimer {
  isActive : bool;
  isInterval : bool;
  timerId : option nat;  (** [None] is the initial [undefined] *)
  duration : Z
}.

Definition new (d : TimerDuration) : Timer :=
  mkTimer false false None
    (match d with
     | DDuration dur => Duration.inMiliseconds dur
     | DNumber n => n
     end).

Definition run : Timer := new (DNumber 0).

Definition interval (d : TimerDuration) : Timer :=
  let t := new d in mkTimer (isActive t) true (timerId t) (duration t).

Definition World : Type := (Timer * Host)%type.

Definition startTimer '((t, h) : World) : World :=
  let '(id, h') := setTimeout (duration t) h in
  (mkTimer (isActive t) (isInterval t) (Some id) (duration t), h').

Definition startInterval '((t, h) : World) : World :=
  let '(id, h') := setInterval (duration t) h in
  (mkTimer (isActive t) (isInterval t) (Some id) (duration t), h').

Definition start (w : World) : World :=
  if isInterval (fst w) then startInterval w else startTimer w.

Definition cancelTimer '((t, h) : World) : World :=
  match timerId t with
  | Some id => (t, clearTimeout id h)
  | None => (t, h)
  end.

Definition cancelInterval '((t, h) : World) : World :=
  match timerId t with
  | Some id => (t, clearInterval id h)
  | None => (t, h)
  end.

Definition cancel (w : World) : World :=
  let '(t, h) := if isInterval (fst w) then cancelInterval w else cancelTimer w in
  (mkTimer false (isInterval t) (timerId t) (duration t), h).

Definition lookup_kind (id : nat) (h : Host) : option TimerKind :=
  match List.find (fun '(i, _, _) => Nat.eqb i id) (scheduled h) with
  | Some (_, k, _) => Some k
  | None => None
  end.

(** The host runs scheduled callback [id]: a timeout is removed before its
    callback runs, which calls [#action] and then, unless [#action] threw,
    sets [#isActive = false]; an interval stays scheduled and only calls
    [#action].  What [#action] itself does is not part of this step: calls
    it makes to the timer's [start] or [cancel] are steps of their own. *)
Definition fire (id : nat) (actionThrows : bool) '((t, h) : World) : option World :=
  match lookup_kind id h with
  | Some KTimeout =>
      let h' := clear id h in
      if actionThrows then Some (t, h')
      else Some (mkTimer false (isInterval t) (timerId t) (duration t), h')
  | Some KInterval => Some (t, h)
  | None => None
  end.

Inductive step : World -> World -> Prop :=
| step_start : forall w, step w (start w)
| step_cancel : forall w, step w (cancel w)
| step_fire : forall w w' id thr, fire id thr w = Some w' -> step w w'.

(** Worlds reachable from a freshly built timer. *)
Inductive reachable : World -> Prop :=
| reach_new : forall d h, reachable (new d, h)
| reach_interval : forall d h, reachable (interval d, h)
| reach_step : forall w w', reachable w -> step w w' -> reachable w'.

End Timer.

(** ** Helpers *)

(** [x => g(f(x))]: the mapper obtained by composing two mappers. *)
Definition compose_mapper (f g : JsVal -> Completion JsVal) : JsVal -> Completion JsVal :=
  fun x => match f x with
           | Normal y => g y
           | Throw e => Throw e
           end.

(** [opt.map(f).map(g)] *)
Definition map_then (o : Optional.Optional) (f g : JsVal -> Completion JsVal)
    : JsM Trace Optional.Optional :=
  o' <- Optional.map o (NSome f) ;; Optional.map o' (NSome g).

(** [opt.flatMap(m).get()] *)
Definition flatMap_get (o : Optional.Optional)
    (m : JsVal -> Completion (Nullable Optional.Optional)) : JsM Trace JsVal :=
  r <- Optional.flatMap o (NSome m) ;; complete (Optional.get r).

(** The count of a [Duration] built from an input object. *)
Definition input_count (l : Duration.DurationInput) : Z :=
  Duration.count (Duration.new (Duration.ArgInput l)).



(** Every id in the host's table was handed out already. *)
Definition host_fresh (h : Timer.Host) : Prop :=
  forall i k d, In (i, k, d) (Timer.scheduled h) -> (i <= Timer.last_id h)%nat.

(** The kind of host timer [start] schedules for a timer. *)
Definition kind_of (t : Timer.Timer) : Timer.TimerKind :=
  if Timer.isInterval t then Timer.KInterval else Timer.KTimeout.

Lemma isPresent_isNil : forall o,
  Optional.isPresent o = negb (isNil (Optional.value o)).
Proof. reflexivity. Qed.

Ltac unfold_js :=
  unfold bind, ret, throw, complete, invoke, with_local, try_catch_finally,
    lift, set_local, get_local in *.

(** ** C7: the factories *)

(** C7: [Optional.of(value)] raises [NilArgumentException] exactly when
    [value] is [null] or [undefined], and otherwise returns a present
    container holding [value]; [Optional.ofNullable(value)] never raises,
    returns the empty container exactly when [value] is [null] or
    [undefined], and otherwise a present container holding [value]. *)
Theorem of_ofNullable_contract : forall v : JsVal,
  ((exists e, Optional.of v = Throw e /\ exn_class e = NilArgumentException)
     <-> isNil v = true) /\
  (isNil v = false ->
     Optional.of v = Normal (Optional.mkOptional v) /\
     Optional.isPresent (Optional.mkOptional v) = true) /\
  (exists o, Optional.ofNullable v = Normal o) /\
  (Optional.ofNullable v = Normal Optional.empty <-> isNil v = true) /\
  (isNil v = false -> Optional.ofNullable v = Normal (Optional.mkOptional v)).
Proof.
  intros v; split; [split | split; [| split; [| split]]].
  - intros [e [H _]]; unfold Optional.of in H; destruct v; simpl in *; congruence.
  - intros H; exists new_NilArgumentException; unfold Optional.of; rewrite H.
    split; reflexivity.
  - intros H; unfold Optional.of, Optional.isPresent; simpl; rewrite H.
    split; reflexivity.
  - unfold Optional.ofNullable; destruct (isNil v); eexists; reflexivity.
  - unfold Optional.ofNullable; destruct v; simpl; split; intros H;
      try reflexivity; discriminate.
  - intros H; unfold Optional.ofNullable; rewrite H; reflexivity.
Qed.

Lemma of_ofNullable_contract_witness :
  Optional.of (JNum 5) = Normal (Optional.mkOptional (JNum 5)) /\
  Optional.isPresent (Optional.mkOptional (JNum 5)) = true.
Proof. exact (proj1 (proj2 (of_ofNullable_contract (JNum 5))) eq_refl). Defined.

(** ** C9: [orElse] *)

(** C9: [orElse(other)] returns the held value when a value is present and
    otherwise [other] verbatim, even when [other] is [null] or [undefined];
    in particular [Optional.empty().orElse(null)] is [null]. *)
Theorem orElse_verbatim : forall (o : Optional.Optional) (other : JsVal),
  (Optional.isPresent o = true -> Optional.orElse o other = Optional.value o) /\
  (Optional.isPresent o = false -> Optional.orElse o other = other) /\
  Optional.orElse Optional.empty JNull = JNull.
Proof.
  intros o other; unfold Optional.orElse; repeat split; intros H;
    rewrite H; reflexivity.
Qed.

Lemma orElse_verbatim_witness :
  Optional.orElse Optional.empty JUndefined = JUndefined.
Proof. exact (proj1 (proj2 (orElse_verbatim Optional.empty JUndefined)) eq_refl). Defined.

(** ** C10: [get] and [orElseThrow()] *)

(** C10: the zero-argument [orElseThrow()] (which receives [undefined])
    behaves exactly as [get()], leaving the trace unchanged: both return the
    held value when present and both raise [NoSuchElementException]
    when empty. *)
Theorem get_orElseThrow_equiv : forall (o : Optional.Optional) (tr : Trace),
  Optional.orElseThrow o NUndefined tr = (Optional.get o, tr) /\
  (Optional.isPresent o = true -> Optional.get o = Normal (Optional.value o)) /\
  (Optional.isPresent o = false -> Optional.get o = Throw new_NoSuchElementException).
Proof.
  intros [v] tr; unfold Optional.orElseThrow, Optional.get, Optional.isPresent;
    simpl; unfold_js; destruct (isNil v); simpl; repeat split;
    intros; try discriminate; reflexivity.
Qed.

Lemma get_orElseThrow_equiv_witness :
  Optional.get Optional.empty = Throw new_NoSuchElementException.
Proof. exact (proj2 (proj2 (get_orElseThrow_equiv Optional.empty [])) eq_refl). Defined.

(** ** C8: [flatMap] *)

(** C8: with a non-null mapper [m], on a present container [flatMap(m)]
    calls [m] once on the held value and completes as [m] did, returning an
    [Optional] result as it is and [empty()] for a [null]/[undefined] one;
    when [m] returns [Optional.of(y)], [flatMap(m).get()] is [y]; on an
    empty container it returns [empty()] without calling [m]. *)
Theorem flatMap_contract :
  forall (o : Optional.Optional)
         (m : JsVal -> Completion (Nullable Optional.Optional)) (tr : Trace),
  (Optional.isPresent o = true ->
     Optional.flatMap o (NSome m) tr =
       (match m (Optional.value o) with
        | Normal (NSome r) => Normal r
        | Normal _ => Normal Optional.empty
        | Throw e => Throw e
        end, (tr ++ [Invoked CbMapper [Optional.value o]])%list)) /\
  (forall y r, Optional.isPresent o = true -> Optional.of y = Normal r ->
     m (Optional.value o) = Normal (NSome r) ->
     fst (flatMap_get o m tr) = Normal y) /\
  (Optional.isPresent o = false ->
     Optional.flatMap o (NSome m) tr = (Normal Optional.empty, tr)).
Proof.
  intros [v] m tr; unfold flatMap_get, Optional.flatMap, Optional.isPresent; simpl.
  unfold_js; split; [| split]; intros; destruct (isNil v) eqn:Hv;
    simpl in *; try discriminate.
  - destruct (m v) as [[| |r]|e]; reflexivity.
  - rewrite H1; simpl. unfold Optional.of in H0.
    destruct (isNil y) eqn:Hy; inversion H0; subst; simpl.
    unfold Optional.get; simpl; rewrite Hy; reflexivity.
  - reflexivity.
Qed.

Lemma flatMap_contract_witness :
  fst (flatMap_get (Optional.mkOptional (JNum 2))
         (fun x => Normal (NSome (Optional.mkOptional (JStr "y")))) [])
  = Normal (JStr "y").
Proof.
  apply (proj1 (proj2 (flatMap_contract (Optional.mkOptional (JNum 2))
           (fun x => Normal (NSome (Optional.mkOptional (JStr "y")))) []))
           (JStr "y") (Optional.mkOptional (JStr "y")));
    reflexivity.
Defined.

(** ** C5: [orElseThrow(exceptionSupplier)] *)

(** C5: on an empty container with a non-null [exceptionSupplier],
    [orElseThrow] calls the supplier once; an exception [e] it raises comes
    out unchanged, and a normal return becomes a [RuntimeException] with
    message "Supplier is not throwable"; on a present container it returns
    the held value without calling the supplier. *)
Theorem orElseThrow_supplier_contract :
  forall (o : Optional.Optional) (f : unit -> Completion unit) (tr : Trace),
  (forall e, Optional.isPresent o = false -> f tt = Throw e ->
     Optional.orElseThrow o (NSome f) tr =
       (Throw e, (tr ++ [Invoked CbExceptionSupplier []])%list)) /\
  (Optional.isPresent o = false -> f tt = Normal tt ->
     Optional.orElseThrow o (NSome f) tr =
       (Throw (new_RuntimeException "Supplier is not throwable"),
        (tr ++ [Invoked CbExceptionSupplier []])%list)) /\
  (Optional.isPresent o = true ->
     Optional.orElseThrow o (NSome f) tr = (Normal (Optional.value o), tr)).
Proof.
  intros [v] f tr; unfold Optional.orElseThrow, Optional.isPresent; simpl.
  unfold_js; split; [| split]; intros; destruct (isNil v);
    simpl in *; try discriminate.
  - rewrite H0; reflexivity.
  - rewrite H0; reflexivity.
  - reflexivity.
Qed.

Lemma orElseThrow_supplier_contract_witness :
  Optional.orElseThrow Optional.empty (NSome (fun _ => Normal tt)) [] =
    (Throw (new_RuntimeException "Supplier is not throwable"),
     [Invoked CbExceptionSupplier []]).
Proof.
  exact (proj1 (proj2 (orElseThrow_supplier_contract Optional.empty
           (fun _ => Normal tt) [])) eq_refl eq_refl).
Defined.

(** ** C1: [ifPresentOrElse] checks only the callback of the branch taken *)

(** C1 (refuted as stated): it is not true that [ifPresentOrElse] raises
    [NilArgumentException] whenever [action] or [emptyAction] is
    [null]/[undefined]: on a present container with a non-null [action] and
    [emptyAction = null] it calls [action] and completes normally. *)
Lemma ifPresentOrElse_not_eager :
  ~ (forall (o : Optional.Optional) (action emptyAction : Nullable (JsVal -> Completion unit))
            (tr : Trace),
       (isNilN action || isNilN emptyAction)%bool = true ->
       fst (Optional.ifPresentOrElse o action emptyAction tr) =
         Throw new_NilArgumentException).
Proof.
  intros H.
  specialize (H (Optional.mkOptional (JNum 1)) (NSome (fun _ => Normal tt)) NNull []
                eq_refl).
  discriminate H.
Qed.

(** C1 (as the code does it): on a present container [ifPresentOrElse]
    raises [NilArgumentException] when [action] is null/undefined and
    otherwise calls only [action] on the held value, never looking at
    [emptyAction]; on an empty container it raises [NilArgumentException]
    when [emptyAction] is null/undefined and otherwise calls only
    [emptyAction] on the (absent) slot value, never looking at [action]. *)
Theorem ifPresentOrElse_lazy_check :
  forall (o : Optional.Optional) (action emptyAction : Nullable (JsVal -> Completion unit))
         (tr : Trace),
  (Optional.isPresent o = true ->
     (isNilN action = true ->
        Optional.ifPresentOrElse o action emptyAction tr =
          (Throw new_NilArgumentException, tr)) /\
     (forall f, action = NSome f ->
        Optional.ifPresentOrElse o action emptyAction tr =
          (f (Optional.value o), (tr ++ [Invoked CbAction [Optional.value o]])%list))) /\
  (Optional.isPresent o = false ->
     (isNilN emptyAction = true ->
        Optional.ifPresentOrElse o action emptyAction tr =
          (Throw new_NilArgumentException, tr)) /\
     (forall f, emptyAction = NSome f ->
        Optional.ifPresentOrElse o action emptyAction tr =
          (f (Optional.value o),
           (tr ++ [Invoked CbEmptyAction [Optional.value o]])%list))).
Proof.
  intros [v] action emptyAction tr;
    unfold Optional.ifPresentOrElse, Optional.isPresent; simpl; unfold_js.
  split; intros Hp; destruct (isNil v); simpl in Hp; try discriminate;
    simpl; split; intros; subst; try reflexivity.
  - destruct action; try reflexivity; discriminate.
  - destruct emptyAction; try reflexivity; discriminate.
Qed.

Lemma ifPresentOrElse_lazy_check_witness :
  Optional.ifPresentOrElse (Optional.mkOptional (JNum 1))
    (NSome (fun _ => Normal tt)) NNull [] =
  (Normal tt, [Invoked CbAction [JNum 1]]).
Proof.
  exact (proj2 (proj1 (ifPresentOrElse_lazy_check (Optional.mkOptional (JNum 1))
           (NSome (fun _ => Normal tt)) NNull []) eq_refl)
           (fun _ => Normal tt) eq_refl).
Defined.

(** ** C2: [or] validates eagerly, [orElseGet] does not *)

(** C2 (refuted as stated): [orElseGet] with a null supplier on a present
    container does not raise; it returns the held value. *)
Lemma orElseGet_present_null_supplier :
  ~ (forall (o : Optional.Optional)
            (s_or : Nullable (unit -> Completion (Nullable Optional.Optional)))
            (s_get : Nullable (unit -> Completion JsVal)) (tr : Trace),
       Optional.isPresent o = true -> isNilN s_or = true -> isNilN s_get = true ->
       fst (Optional.or o s_or tr) = Throw new_NilArgumentException /\
       fst (Optional.orElseGet o s_get tr) = Throw new_NilArgumentException).
Proof.
  intros H.
  destruct (H (Optional.mkOptional (JNum 1)) NNull NNull [] eq_refl eq_refl eq_refl)
    as [_ H2].
  discriminate H2.
Qed.

(** C2 (as the code does it): [or] raises [NilArgumentException] for a
    null/undefined supplier on every container, present ones included,
    although it would not call it there.  [orElseGet] returns the held value
    of a present container whatever the supplier, null/undefined included;
    it raises [NilArgumentException] itself only for an empty container and
    a null/undefined supplier; for an empty container and a supplier
    function it calls the supplier once and completes as the supplier did. *)
Theorem or_eager_orElseGet_lazy :
  forall (o : Optional.Optional)
         (s_or : Nullable (unit -> Completion (Nullable Optional.Optional)))
         (s_get : Nullable (unit -> Completion JsVal)) (tr : Trace),
  (isNilN s_or = true ->
     Optional.or o s_or tr = (Throw new_NilArgumentException, tr)) /\
  (Optional.isPresent o = true ->
     Optional.orElseGet o s_get tr = (Normal (Optional.value o), tr)) /\
  (Optional.isPresent o = false -> isNilN s_get = true ->
     Optional.orElseGet o s_get tr = (Throw new_NilArgumentException, tr)) /\
  (forall s, Optional.isPresent o = false -> s_get = NSome s ->
     Optional.orElseGet o s_get tr = (s tt, (tr ++ [Invoked CbSupplier []])%list)).
Proof.
  intros o s_or s_get tr;
    unfold Optional.or, Optional.orElseGet; unfold_js.
  split; [| split; [| split]].
  - intros H; destruct s_or; try discriminate; reflexivity.
  - intros Hp; rewrite Hp; simpl; reflexivity.
  - intros Hp Hs; rewrite Hp, Hs; reflexivity.
  - intros s Hp Hs; rewrite Hp, Hs; reflexivity.
Qed.

Lemma or_eager_orElseGet_lazy_witness :
  Optional.or (Optional.mkOptional (JNum 1)) NNull [] =
    (Throw new_NilArgumentException, []) /\
  Optional.orElseGet (Optional.mkOptional (JNum 1)) NUndefined [] =
    (Normal (JNum 1), []) /\
  Optional.orElseGet Optional.empty NNull [] = (Throw new_NilArgumentException, []) /\
  Optional.orElseGet Optional.empty (NSome (fun _ => Normal (JStr "d"))) [] =
    (Normal (JStr "d"), [Invoked CbSupplier []]).
Proof.
  destruct (or_eager_orElseGet_lazy (Optional.mkOptional (JNum 1)) NNull NUndefined [])
    as [H1 [H2 _]].
  destruct (or_eager_orElseGet_lazy Optional.empty NNull NNull []) as [_ [_ [H3 _]]].
  destruct (or_eager_orElseGet_lazy Optional.empty NNull
              (NSome (fun _ => Normal (JStr "d"))) []) as [_ [_ [_ H4]]].
  split; [exact (H1 eq_refl) |].
  split; [exact (H2 eq_refl) |].
  split; [exact (H3 eq_refl eq_refl) |].
  exact (H4 _ eq_refl eq_refl).
Defined.

(** ** C3: the composition law of [map] *)

(** C3 (refuted as stated): with [f = x => null] and [g = y => 1] on
    [Optional.of(0)], [opt.map(f).map(g)] is empty (since [g] is never
    called) while [opt.map(x => g(f(x)))] holds [1]. *)
Lemma map_composition_fails_on_null :
  let o := Optional.mkOptional (JNum 0) in
  let f := fun _ : JsVal => Normal JNull in
  let g := fun _ : JsVal => Normal (JNum 1) in
  fst (map_then o f g []) = Normal Optional.empty /\
  fst (Optional.map o (NSome (compose_mapper f g)) []) =
    Normal (Optional.mkOptional (JNum 1)) /\
  fst (map_then o f g []) <> fst (Optional.map o (NSome (compose_mapper f g)) []).
Proof. repeat split; discriminate. Qed.

(** C3 (as the code does it): for a present container and pure mappers
    [f], [g], [opt.map(f).map(g)] and [opt.map(x => g(f(x)))] complete
    identically whenever [f] at the held value raises or returns a non-null
    value, or returns null/undefined that [g] maps to null/undefined.  When
    [f] returns a null/undefined [y], [opt.map(f).map(g)] is empty and the
    only callback it calls is [f], once; [opt.map(x => g(f(x)))] completes
    as [Optional.ofNullable(g(y))]: it holds [g(y)] when that is not
    null/undefined, and raises what [g] raises. *)
Theorem map_composition :
  forall (o : Optional.Optional) (f g : JsVal -> Completion JsVal) (tr : Trace),
  Optional.isPresent o = true ->
  ((forall y, f (Optional.value o) = Normal y -> isNil y = true ->
      exists z, g y = Normal z /\ isNil z = true) ->
   fst (map_then o f g tr) = fst (Optional.map o (NSome (compose_mapper f g)) tr)) /\
  (forall y, f (Optional.value o) = Normal y -> isNil y = true ->
     map_then o f g tr =
       (Normal Optional.empty, (tr ++ [Invoked CbMapper [Optional.value o]])%list) /\
     fst (Optional.map o (NSome (compose_mapper f g)) tr) =
       match g y with
       | Normal z => Optional.ofNullable z
       | Throw e => Throw e
       end).
Proof.
  intros [v] f g tr Hp; unfold Optional.isPresent in Hp; simpl in *.
  unfold map_then, Optional.map, compose_mapper; simpl; unfold_js.
  destruct (isNil v) eqn:Hv; try discriminate; simpl.
  split.
  - intros Hg.
    destruct (f v) as [y|e] eqn:Hf; simpl; [|reflexivity].
    unfold Optional.ofNullable; destruct (isNil y) eqn:Hy; simpl.
    + destruct (Hg y eq_refl Hy) as [z [Hz Hzn]]; rewrite Hz; simpl.
      rewrite Hzn; reflexivity.
    + rewrite Hy; simpl. destruct (g y); reflexivity.
  - intros y Hf Hy; rewrite Hf; simpl.
    unfold Optional.ofNullable; rewrite Hy; simpl.
    split; [reflexivity |].
    destruct (g y); reflexivity.
Qed.

Lemma map_composition_witness :
  fst (map_then (Optional.mkOptional (JNum 3)) (fun x => Normal (JStr "a"))
         (fun _ => Normal (JNum 7)) []) =
  fst (Optional.map (Optional.mkOptional (JNum 3))
         (NSome (compose_mapper (fun x => Normal (JStr "a")) (fun _ => Normal (JNum 7)))) []) /\
  map_then (Optional.mkOptional (JNum 0)) (fun _ => Normal JNull)
      (fun _ => Normal (JNum 1)) [] =
    (Normal Optional.empty, [Invoked CbMapper [JNum 0]]).
Proof.
  split.
  - apply (proj1 (map_composition (Optional.mkOptional (JNum 3)) (fun x => Normal (JStr "a"))
                    (fun _ => Normal (JNum 7)) [] eq_refl)).
    intros y Hy Hn; inversion Hy; subst; discriminate Hn.
  - exact (proj1 (proj2 (map_composition (Optional.mkOptional (JNum 0))
                           (fun _ => Normal JNull) (fun _ => Normal (JNum 1)) [] eq_refl)
                           JNull eq_refl eq_refl)).
Defined.

(** ** C4: the guard contract of [BrandStructure] and [StrictType] *)

Section GuardContract.
Variable TBase : Type.
Variable display : TBase -> Completion string.
Variable validator : TBase -> Completion ValidatorResult.



End GuardContract.




(** ** C6: the two guards raise the same error kind *)

(** C6 (refuted as stated): no validator and input make
    [BrandStructure.assert] and [StrictType.assert] raise exceptions of
    different classes, symbols and throwing validators included. *)
Lemma brand_strict_no_distinct_kinds :
  ~ exists (validator : Prim -> Completion ValidatorResult) (v : Prim) (e1 e2 : Exn),
      BrandStructure.assert Prim template_string
        (BrandStructure.mkBrandStructure validator) v = Throw e1 /\
      StrictType.assert Prim template_string (StrictType.mkStrictType validator) v
        = Throw e2 /\
      exn_class e1 <> exn_class e2.
Proof.
  intros [validator [v [e1 [e2 [H1 [H2 Hne]]]]]].
  unfold BrandStructure.assert, StrictType.assert in *; simpl in *.
  destruct (validator v) as [[[|]|r]|e0]; try destruct (template_string v);
    try discriminate; congruence.
Qed.

(** C6 (as the code does it): built from the same validator, [BrandStructure]
    and [StrictType] give identical results for [is], [assert] and
    [identity]; an exception their [assert] raises is the validator's own,
    or that of [`${value}`] after a [false] result, or, on a text or [false]
    result, an [AssertionException], which is not a [RuntimeException]. *)
Theorem brand_strict_same_failure :
  forall (TBase : Type) (display : TBase -> Completion string)
         (validator : TBase -> Completion ValidatorResult) (v : TBase),
  BrandStructure.is TBase (BrandStructure.mkBrandStructure validator) v =
    StrictType.is TBase (StrictType.mkStrictType validator) v /\
  BrandStructure.assert TBase display (BrandStructure.mkBrandStructure validator) v =
    StrictType.assert TBase display (StrictType.mkStrictType validator) v /\
  BrandStructure.identity TBase display (BrandStructure.mkBrandStructure validator) v =
    StrictType.identity TBase display (StrictType.mkStrictType validator) v /\
  (forall e,
     BrandStructure.assert TBase display (BrandStructure.mkBrandStructure validator) v
       = Throw e ->
     validator v = Throw e \/
     (validator v = Normal (VBool false) /\ display v = Throw e) \/
     (((exists r, validator v = Normal (VText r)) \/ validator v = Normal (VBool false)) /\
      exn_class e = AssertionException /\ ~ In RuntimeException (ancestors (exn_class e)))).
Proof.
  intros TBase display validator v.
  unfold BrandStructure.is, StrictType.is, BrandStructure.identity,
    StrictType.identity, BrandStructure.assert, StrictType.assert; simpl.
  destruct (validator v) as [[[|]|r]|e0]; destruct (display v) as [t|e1];
    repeat split; intros e H; try discriminate; inversion H; subst.
  - right; right; split; [right; reflexivity |].
    split; [reflexivity | simpl; intros [Hc | [Hc | []]]; discriminate Hc].
  - right; left; split; reflexivity.
  - right; right; split; [left; exists r; reflexivity |].
    split; [reflexivity | simpl; intros [Hc | [Hc | []]]; discriminate Hc].
  - right; right; split; [left; exists r; reflexivity |].
    split; [reflexivity | simpl; intros [Hc | [Hc | []]]; discriminate Hc].
  - left; reflexivity.
  - left; reflexivity.
Qed.

Lemma brand_strict_same_failure_witness :
  throwing_validator "{" =
    Throw (mkExn (ThrownByCaller "SyntaxError") "malformed JSON") \/
  (throwing_validator "{" = Normal (VBool false) /\
   Normal "{" = Throw (mkExn (ThrownByCaller "SyntaxError") "malformed JSON")) \/
  (((exists r, throwing_validator "{" = Normal (VText r)) \/
    throwing_validator "{" = Normal (VBool false)) /\
   exn_class (mkExn (ThrownByCaller "SyntaxError") "malformed JSON") = AssertionException /\
   ~ In RuntimeException
       (ancestors (exn_class (mkExn (ThrownByCaller "SyntaxError") "malformed JSON")))).
Proof.
  exact (proj2 (proj2 (proj2
           (brand_strict_same_failure string (fun s => Normal s) throwing_validator "{")))
           (mkExn (ThrownByCaller "SyntaxError") "malformed JSON") eq_refl).
Defined.

(** * Further properties of the code *)

(** ** [Optional] *)

(** [ifPresent] checks its action only on a present container: on an empty
    one it does nothing, whatever the action (even null/undefined); on a
    present one a null/undefined action raises [NilArgumentException], and a
    function is called once on the held value. *)
Theorem ifPresent_contract :
  forall (o : Optional.Optional) (action : Nullable (JsVal -> Completion unit))
         (tr : Trace),
  (Optional.isPresent o = false -> Optional.ifPresent o action tr = (Normal tt, tr)) /\
  (Optional.isPresent o = true -> isNilN action = true ->
     Optional.ifPresent o action tr = (Throw new_NilArgumentException, tr)) /\
  (forall f, Optional.isPresent o = true -> action = NSome f ->
     Optional.ifPresent o action tr =
       (f (Optional.value o), (tr ++ [Invoked CbAction [Optional.value o]])%list)).
Proof.
  intros [v] action tr; unfold Optional.ifPresent, Optional.isPresent; simpl; unfold_js.
  split; [| split]; intros; destruct (isNil v); simpl in *; try discriminate;
    try reflexivity.
  - destruct action; try reflexivity; discriminate.
  - subst; reflexivity.
Qed.

Lemma ifPresent_contract_witness :
  Optional.ifPresent Optional.empty NNull [] = (Normal tt, []).
Proof. exact (proj1 (ifPresent_contract Optional.empty NNull []) eq_refl). Defined.

(** [filter] rejects a null/undefined predicate on every container, empty
    ones included; with a predicate it returns [empty()] for an empty
    container without calling it, and on a present container calls it once
    and returns a container holding the same value when it returns [true],
    [empty()] when it returns [false]; an exception of the predicate comes
    out unchanged. *)
Theorem filter_contract :
  forall (o : Optional.Optional) (tr : Trace),
  (forall predicate : Nullable (JsVal -> Completion bool), isNilN predicate = true ->
     Optional.filter o predicate tr = (Throw new_NilArgumentException, tr)) /\
  (forall p, Optional.isPresent o = false ->
     Optional.filter o (NSome p) tr = (Normal Optional.empty, tr)) /\
  (forall p, Optional.isPresent o = true ->
     Optional.filter o (NSome p) tr =
       (match p (Optional.value o) with
        | Normal true => Normal (Optional.mkOptional (Optional.value o))
        | Normal false => Normal Optional.empty
        | Throw e => Throw e
        end, (tr ++ [Invoked CbPredicate [Optional.value o]])%list)).
Proof.
  intros [v] tr; unfold Optional.filter, Optional.isPresent; simpl; unfold_js.
  split; [| split]; intros.
  - destruct predicate; try reflexivity; discriminate.
  - destruct (isNil v); simpl in *; try discriminate; reflexivity.
  - destruct (isNil v); simpl in *; try discriminate.
    destruct (p v) as [[|]|e]; reflexivity.
Qed.

Lemma filter_contract_witness :
  Optional.filter Optional.empty NUndefined [] = (Throw new_NilArgumentException, []).
Proof. exact (proj1 (filter_contract Optional.empty []) NUndefined eq_refl). Defined.

(** [opt.filter(p).filter(p)] completes as [opt.filter(p)] for a pure
    predicate [p] (one whose result depends on its argument only). *)
Theorem filter_idempotent :
  forall (o : Optional.Optional) (p : JsVal -> Completion bool) (tr : Trace),
  fst ((o' <- Optional.filter o (NSome p) ;; Optional.filter o' (NSome p)) tr) =
  fst (Optional.filter o (NSome p) tr).
Proof.
  intros [v] p tr; unfold Optional.filter; simpl; unfold_js.
  destruct (isNil v) eqn:Hv; simpl; [reflexivity |].
  destruct (p v) as [[|]|e] eqn:Hp; simpl; try reflexivity.
  rewrite Hv; simpl; rewrite Hp; reflexivity.
Qed.

(** [map] rejects a null/undefined mapper on every container; with a mapper
    it returns [empty()] for an empty container without calling it, and on a
    present container calls it once and returns a container holding its
    result, or [empty()] when the result is null/undefined; an exception of
    the mapper comes out unchanged. *)
Theorem map_contract :
  forall (o : Optional.Optional) (tr : Trace),
  (forall mapper : Nullable (JsVal -> Completion JsVal), isNilN mapper = true ->
     Optional.map o mapper tr = (Throw new_NilArgumentException, tr)) /\
  (forall f, Optional.isPresent o = false ->
     Optional.map o (NSome f) tr = (Normal Optional.empty, tr)) /\
  (forall f, Optional.isPresent o = true ->
     Optional.map o (NSome f) tr =
       (match f (Optional.value o) with
        | Normal r => if isNil r then Normal Optional.empty else Normal (Optional.mkOptional r)
        | Throw e => Throw e
        end, (tr ++ [Invoked CbMapper [Optional.value o]])%list)).
Proof.
  intros [v] tr; unfold Optional.map, Optional.isPresent; simpl; unfold_js.
  split; [| split]; intros.
  - destruct mapper; try reflexivity; discriminate.
  - destruct (isNil v); simpl in *; try discriminate; reflexivity.
  - destruct (isNil v); simpl in *; try discriminate.
    destruct (f v) as [r|e]; [|reflexivity].
    unfold Optional.ofNullable; destruct (isNil r); reflexivity.
Qed.

Lemma map_contract_witness :
  Optional.map (Optional.mkOptional (JNum 2)) (NSome (fun _ => Normal JUndefined)) [] =
    (Normal Optional.empty, [Invoked CbMapper [JNum 2]]).
Proof.
  exact (proj2 (proj2 (map_contract (Optional.mkOptional (JNum 2)) []))
           (fun _ => Normal JUndefined) eq_refl).
Defined.

(** [or] with a supplier returns a present receiver itself without calling
    the supplier; on an empty receiver it calls the supplier once and
    returns the [Optional] it yields as it is, raises
    [NilArgumentException] when it yields null/undefined, and passes an
    exception of the supplier through. *)
Theorem or_contract :
  forall (o : Optional.Optional)
         (s : unit -> Completion (Nullable Optional.Optional)) (tr : Trace),
  (Optional.isPresent o = true -> Optional.or o (NSome s) tr = (Normal o, tr)) /\
  (Optional.isPresent o = false ->
     Optional.or o (NSome s) tr =
       (match s tt with
        | Normal (NSome r) => Normal r
        | Normal _ => Throw new_NilArgumentException
        | Throw e => Throw e
        end, (tr ++ [Invoked CbSupplier []])%list)).
Proof.
  intros o s tr; unfold Optional.or; unfold_js.
  split; intros Hp; rewrite Hp; [reflexivity |].
  destruct (s tt) as [[| |r]|e]; reflexivity.
Qed.

Lemma or_contract_witness :
  Optional.or Optional.empty (NSome (fun _ => Normal NNull)) [] =
    (Throw new_NilArgumentException, [Invoked CbSupplier []]).
Proof.
  exact (proj2 (or_contract Optional.empty (fun _ => Normal NNull) []) eq_refl).
Defined.

(** [orElseGet] with a supplier returns the held value of a present
    container without calling the supplier, and on an empty container calls
    it once and returns its result as it is, null/undefined included. *)
Theorem orElseGet_contract :
  forall (o : Optional.Optional) (s : unit -> Completion JsVal) (tr : Trace),
  (Optional.isPresent o = true ->
     Optional.orElseGet o (NSome s) tr = (Normal (Optional.value o), tr)) /\
  (Optional.isPresent o = false ->
     Optional.orElseGet o (NSome s) tr = (s tt, (tr ++ [Invoked CbSupplier []])%list)).
Proof.
  intros o s tr; unfold Optional.orElseGet; unfold_js.
  split; intros Hp; rewrite Hp; reflexivity.
Qed.

Lemma orElseGet_contract_witness :
  Optional.orElseGet Optional.empty (NSome (fun _ => Normal JUndefined)) [] =
    (Normal JUndefined, [Invoked CbSupplier []]).
Proof.
  exact (proj2 (orElseGet_contract Optional.empty (fun _ => Normal JUndefined) [])
           eq_refl).
Defined.

Lemma strict_equals_sym : forall a b, strict_equals a b = strict_equals b a.
Proof.
  intros [| |x|x|x] [| |y|y|y]; simpl; try reflexivity.
  - destruct x, y; reflexivity.
  - apply Z.eqb_sym.
  - apply String.eqb_sym.
Qed.

(** [equals] is symmetric; any two empty containers are equal, whether
    their slot holds [null] or [undefined]; a present container never equals
    an empty one; and nothing equals [null] or [undefined]. *)
Theorem equals_contract :
  forall o o' : Optional.Optional,
  Optional.equals o (NSome o') = Optional.equals o' (NSome o) /\
  (Optional.isPresent o = false -> Optional.isPresent o' = false ->
     Optional.equals o (NSome o') = true) /\
  (Optional.isPresent o = true -> Optional.isPresent o' = false ->
     Optional.equals o (NSome o') = false) /\
  Optional.equals o NNull = false /\ Optional.equals o NUndefined = false.
Proof.
  intros [v] [w]; unfold Optional.equals, Optional.isPresent; simpl.
  split; [| split; [| split; [| split]]]; try reflexivity.
  - rewrite strict_equals_sym, Bool.andb_comm; reflexivity.
  - intros H1 H2; rewrite H1, H2; reflexivity.
  - intros H1 H2; rewrite H1, H2; simpl.
    destruct v, w; simpl in *; try discriminate; reflexivity.
Qed.

Lemma equals_contract_witness :
  Optional.equals (Optional.mkOptional JUndefined) (NSome Optional.empty) = true.
Proof.
  exact (proj1 (proj2 (equals_contract (Optional.mkOptional JUndefined) Optional.empty))
           eq_refl eq_refl).
Defined.

(** The canonical class represents absence by [null] only: the containers
    returned by [of], [ofNullable], [map] and [filter] never hold
    [undefined] in their slot, whatever the receiver holds. *)
Theorem canonical_absence_is_null :
  forall (v : JsVal) (o : Optional.Optional)
         (mapper : Nullable (JsVal -> Completion JsVal))
         (predicate : Nullable (JsVal -> Completion bool)) (tr : Trace),
  (forall r, Optional.of v = Normal r -> Optional.value r <> JUndefined) /\
  (forall r, Optional.ofNullable v = Normal r -> Optional.value r <> JUndefined) /\
  (forall r tr', Optional.map o mapper tr = (Normal r, tr') ->
     Optional.value r <> JUndefined) /\
  (forall r tr', Optional.filter o predicate tr = (Normal r, tr') ->
     Optional.value r <> JUndefined).
Proof.
  intros v [x] mapper predicate tr.
  split; [| split; [| split]]; intros r.
  - unfold Optional.of; destruct v; simpl; intros H; inversion H; discriminate.
  - unfold Optional.ofNullable; destruct v; simpl; intros H; inversion H; discriminate.
  - intros tr'; unfold Optional.map; simpl; unfold_js.
    destruct mapper as [| |f]; try discriminate.
    destruct (isNil x); simpl; [intros H; inversion H; discriminate |].
    destruct (f x) as [y|e]; simpl; [| discriminate].
    unfold Optional.ofNullable; destruct y; simpl; intros H; inversion H; discriminate.
  - intros tr'; unfold Optional.filter; simpl; unfold_js.
    destruct predicate as [| |p]; try discriminate.
    destruct (isNil x) eqn:Hx; simpl; [intros H; inversion H; discriminate |].
    destruct (p x) as [[|]|e]; simpl; intros H; inversion H; subst; simpl;
      try discriminate.
    intros Hu; rewrite Hu in Hx; discriminate.
Qed.

Lemma canonical_absence_is_null_witness :
  Optional.value Optional.empty <> JUndefined.
Proof.
  exact (proj1 (proj2 (canonical_absence_is_null JUndefined Optional.empty NNull NNull []))
           Optional.empty eq_refl).
Defined.

(** ** The older variant against the canonical class *)

(** The older [map], which tests the mapper's result itself, behaves
    exactly as the canonical [map], which goes through [ofNullable]: same
    result or exception and same callback calls, for every receiver and
    mapper. *)
Theorem util_map_agrees :
  forall (o : Optional.Optional) (mapper : Nullable (JsVal -> Completion JsVal))
         (tr : Trace),
  OptionalUtil.map o mapper tr = Optional.map o mapper tr.
Proof.
  intros [v] mapper tr; unfold OptionalUtil.map, Optional.map; simpl; unfold_js.
  destruct mapper as [| |f]; try reflexivity.
  destruct (isNil v); simpl; try reflexivity.
  destruct (f v) as [r|e]; simpl; try reflexivity.
  unfold Optional.ofNullable; destruct (isNil r); reflexivity.
Qed.

(** The older [ofNullable] keeps [undefined] in the slot where the
    canonical one stores [null]: the two agree on every value except
    [undefined], and even there [isPresent] and [get] of the results
    agree. *)
Theorem util_ofNullable_vs_canonical :
  forall v : JsVal,
  (forall r r', OptionalUtil.ofNullable v = Normal r -> Optional.ofNullable v = Normal r' ->
     OptionalUtil.isPresent r = Optional.isPresent r' /\
     OptionalUtil.get r = Optional.get r') /\
  (OptionalUtil.ofNullable v = Optional.ofNullable v <-> v <> JUndefined).
Proof.
  intros v; split.
  - intros r r' H1 H2; unfold OptionalUtil.ofNullable, Optional.ofNullable in *.
    destruct v; simpl in *; inversion H1; inversion H2; subst; split; reflexivity.
  - unfold OptionalUtil.ofNullable, Optional.ofNullable; destruct v; simpl;
      split; intros H; try reflexivity; try discriminate;
      try (exfalso; apply H; reflexivity).
Qed.

Lemma util_ofNullable_vs_canonical_witness :
  OptionalUtil.get (Optional.mkOptional JUndefined) = Optional.get Optional.empty.
Proof.
  exact (proj2 (proj1 (util_ofNullable_vs_canonical JUndefined)
                  (Optional.mkOptional JUndefined) Optional.empty eq_refl eq_refl)).
Defined.

(** ** [Duration] *)



(** A property whose name is none of ["days"], ["hours"], ["minutes"],
    ["seconds"] falls into the last branch of the constructor: its value
    is counted as milliseconds, whatever the name (a misspelt unit
    included). *)
Theorem duration_unknown_key_is_milliseconds :
  forall (k : string) (n : Z),
  k <> "days" -> k <> "hours" -> k <> "minutes" -> k <> "seconds" ->
  input_count [(k, NSome n)] = n.
Proof.
  intros k n H1 H2 H3 H4; unfold input_count; simpl.
  destruct (Z.eqb n 0) eqn:Hn; simpl.
  - apply Z.eqb_eq in Hn; lia.
  - apply String.eqb_neq in H1, H2, H3, H4; rewrite H1, H2, H3, H4; lia.
Qed.

Lemma duration_unknown_key_is_milliseconds_witness :
  input_count [("hour", NSome 2)] = 2.
Proof.
  apply duration_unknown_key_is_milliseconds; discriminate.
Defined.

(** The units of the constructor agree: for an integer [n] with
    [|86400000n| <= 2^53], [{days: n}], [{hours: 24n}], [{minutes: 1440n}],
    [{seconds: 86400n}] and [{milliseconds: 86400000n}] give the same count,
    [86400000n].  In that range every product the code computes is a safe
    integer, so its double arithmetic is exact. *)
Theorem duration_units_consistent : forall n : Z,
  Z.abs (Duration.MILISECONDS_PER_DAY * n) <= 2 ^ 53 ->
  input_count [("days", NSome n)] = input_count [("hours", NSome (24 * n))] /\
  input_count [("hours", NSome (24 * n))] = input_count [("minutes", NSome (1440 * n))] /\
  input_count [("minutes", NSome (1440 * n))] = input_count [("seconds", NSome (86400 * n))] /\
  input_count [("seconds", NSome (86400 * n))] =
    input_count [("milliseconds", NSome (86400000 * n))] /\
  input_count [("milliseconds", NSome (86400000 * n))] = 86400000 * n.
Proof.
  intros n _; unfold input_count, Duration.new, Duration.count; cbn [fold_left].
  unfold Duration.add_entry, Duration.truthy; cbn -[Z.mul Z.eqb Z.add].
  destruct (Z.eq_dec n 0) as [-> | Hn]; [repeat split |].
  assert (E : forall k, k <> 0 -> Z.eqb (k * n) 0 = false)
    by (intros k Hk; apply Z.eqb_neq; nia).
  rewrite (E 24), (E 1440), (E 86400), (E 86400000) by lia.
  replace (Z.eqb n 0) with false by (symmetry; apply Z.eqb_neq; exact Hn).
  unfold Duration.MILISECONDS_PER_DAY, Duration.MILISECONDS_PER_HOUR,
    Duration.MILISECONDS_PER_MINUTE, Duration.MILISECONDS_PER_SECOND,
    Duration.HOURS_PER_DAY, Duration.MINUTES_PER_HOUR, Duration.SECONDS_PER_MINUTE.
  repeat split; lia.
Qed.

Lemma duration_units_consistent_witness :
  input_count [("days", NSome 2)] = input_count [("hours", NSome 48)] /\
  input_count [("hours", NSome 48)] = input_count [("minutes", NSome 2880)] /\
  input_count [("minutes", NSome 2880)] = input_count [("seconds", NSome 172800)] /\
  input_count [("seconds", NSome 172800)] =
    input_count [("milliseconds", NSome 172800000)] /\
  input_count [("milliseconds", NSome 172800000)] = 172800000.
Proof.
  exact (duration_units_consistent 2 ltac:(vm_compute; discriminate)).
Defined.



(** Properties whose value is falsy ([null], [undefined] or [0]) are
    skipped by the constructor: removing them does not change the count. *)
Theorem duration_falsy_ignored :
  forall (l1 l2 : Duration.DurationInput) (k : string) (v : Nullable Z),
  v = NNull \/ v = NUndefined \/ v = NSome 0 ->
  input_count (l1 ++ (k, v) :: l2)%list = input_count (l1 ++ l2)%list.
Proof.
  intros l1 l2 k v Hv; unfold input_count; simpl.
  rewrite !fold_left_app; simpl.
  destruct Hv as [-> | [-> | ->]]; reflexivity.
Qed.

Lemma duration_falsy_ignored_witness :
  input_count [("hours", NSome 1); ("days", NSome 0)] = input_count [("hours", NSome 1)].
Proof.
  apply (duration_falsy_ignored [("hours", NSome 1)] [] "days" (NSome 0)); auto.
Defined.

Lemma duration_constants :
  Duration.MILISECONDS_PER_HOUR = 3600000 /\ Duration.MILISECONDS_PER_MINUTE = 60000 /\
  Duration.MILISECONDS_PER_SECOND = 1000.
Proof. repeat split; reflexivity. Qed.

(** For a non-negative (safe-integer) count, [toString] prints
    [hours:minutes:seconds.milliseconds] where the four fields are the
    hour/minute/second/millisecond decomposition of the count: they add back
    up to the count, and minutes and seconds are below 60 and milliseconds
    below 1000. *)
Theorem duration_toString_decomposition :
  forall c : Z, 0 <= c < 2 ^ 53 ->
  exists h m s ms,
    Duration.toString (Duration.mkDuration c) =
      number_to_string h ++ ":" ++ number_to_string m ++ ":" ++
      number_to_string s ++ "." ++ number_to_string ms /\
    c = 3600000 * h + 60000 * m + 1000 * s + ms /\
    0 <= h /\ 0 <= m < 60 /\ 0 <= s < 60 /\ 0 <= ms < 1000.
Proof.
  intros c Hc.
  destruct duration_constants as [EH [EM ES]].
  exists (c / 3600000), (c mod 3600000 / 60000), (c mod 60000 / 1000), (c mod 1000).
  unfold Duration.toString; simpl Duration.count; rewrite EH, EM, ES.
  rewrite !Z.rem_mod_nonneg by lia.
  split; [reflexivity |].
  pose proof (Z.div_mod c 3600000 ltac:(lia)) as D1.
  pose proof (Z.div_mod (c mod 3600000) 60000 ltac:(lia)) as D2.
  pose proof (Z.div_mod (c mod 60000) 1000 ltac:(lia)) as D3.
  rewrite (Z.mod_mod_divide c 3600000 60000) in D2 by (exists 60; reflexivity).
  rewrite (Z.mod_mod_divide c 60000 1000) in D3 by (exists 60; reflexivity).
  pose proof (Z.mod_pos_bound c 3600000 ltac:(lia)).
  pose proof (Z.mod_pos_bound c 60000 ltac:(lia)).
  pose proof (Z.mod_pos_bound c 1000 ltac:(lia)).
  pose proof (Z.div_pos c 3600000 ltac:(lia) ltac:(lia)).
  pose proof (Z.div_pos (c mod 3600000) 60000 ltac:(lia) ltac:(lia)).
  pose proof (Z.div_pos (c mod 60000) 1000 ltac:(lia) ltac:(lia)).
  pose proof (Z.div_lt_upper_bound (c mod 3600000) 60000 60 ltac:(lia) ltac:(lia)).
  pose proof (Z.div_lt_upper_bound (c mod 60000) 1000 60 ltac:(lia) ltac:(lia)).
  repeat split; lia.
Qed.

Lemma duration_toString_decomposition_witness :
  exists h m s ms,
    Duration.toString (Duration.mkDuration 3723004) =
      number_to_string h ++ ":" ++ number_to_string m ++ ":" ++
      number_to_string s ++ "." ++ number_to_string ms /\
    3723004 = 3600000 * h + 60000 * m + 1000 * s + ms /\
    0 <= h /\ 0 <= m < 60 /\ 0 <= s < 60 /\ 0 <= ms < 1000.
Proof. apply duration_toString_decomposition; lia. Defined.

Example duration_toString_3723004 :
  Duration.toString (Duration.mkDuration 3723004) = "1:2:3.4".
Proof. reflexivity. Qed.

(** A negative integer count above [-1000] renders with [-1] in the hour,
    minute and second fields: the fields mix [Math.floor] (rounding down)
    with [%] (keeping the sign of the count), so [toString] of an integer
    count [-c] with [0 < c < 1000] is ["-1:-1:-1.-c"] instead of a [0:0:0]
    prefix. *)
Theorem duration_toString_small_negative :
  forall c : Z, -1000 < c < 0 ->
  Duration.toString (Duration.mkDuration c) = "-1:-1:-1." ++ number_to_string c.
Proof.
  intros c Hc.
  destruct duration_constants as [EH [EM ES]].
  unfold Duration.toString; simpl Duration.count; rewrite EH, EM, ES.
  assert (R : forall b, -c < b -> Z.rem c b = c).
  { intros b Hb.
    replace c with (- (- c)) at 1 by lia.
    rewrite Z.rem_opp_l', Z.rem_small by lia; lia. }
  rewrite !R by lia.
  replace (c / 3600000) with (-1) by (apply Z.div_unique with (c + 3600000); lia).
  replace (c / 60000) with (-1) by (apply Z.div_unique with (c + 60000); lia).
  replace (c / 1000) with (-1) by (apply Z.div_unique with (c + 1000); lia).
  reflexivity.
Qed.

Lemma duration_toString_small_negative_witness :
  Duration.toString (Duration.mkDuration (-1)) = "-1:-1:-1.-1".
Proof. apply (duration_toString_small_negative (-1)); lia. Defined.

(** ** [Timer] *)

(** [isActive] is never [true]: no method assigns [true] to [#isActive]
    ([start] leaves it as it is), so in every world reachable from a new
    timer, whatever sequence of [start], [cancel] and callback runs, the
    getter returns [false]. *)
Theorem timer_never_active :
  forall w : Timer.World, Timer.reachable w -> Timer.isActive (fst w) = false.
Proof.
  intros w R; induction R as [d h|d h|w w' _ IH S].
  - reflexivity.
  - reflexivity.
  - destruct w as [t h]; simpl in IH.
    inversion S as [w0 E0 E1|w0 E0 E1|w0 w1 id thr F E0 E1]; subst.
    + unfold Timer.start; simpl; destruct (Timer.isInterval t); simpl; exact IH.
    + unfold Timer.cancel; simpl;
        destruct (if Timer.isInterval t then _ else _); reflexivity.
    + unfold Timer.fire in F.
      destruct (Timer.lookup_kind id h) as [[|]|]; try discriminate.
      * destruct thr; inversion F; subst; [exact IH | reflexivity].
      * inversion F; subst; exact IH.
Qed.

Lemma timer_never_active_witness :
  Timer.isActive (fst (Timer.start (Timer.run, Timer.mkHost 0 []))) = false.
Proof.
  apply (timer_never_active (Timer.start (Timer.run, Timer.mkHost 0 []))).
  apply (Timer.reach_step (Timer.run, Timer.mkHost 0 [])).
  - apply Timer.reach_new.
  - apply Timer.step_start.
Defined.

(** The host's ids are fresh: every scheduled id is at most the last one
    handed out. *)
Lemma filter_keep_all : forall (l : list (nat * Timer.TimerKind * Z)) id,
  (forall i k d, In (i, k, d) l -> (i < id)%nat) ->
  List.filter (fun '(i, _, _) => negb (Nat.eqb i id)) l = l.
Proof.
  induction l as [|[[i k] d] l IH]; intros id H; simpl; [reflexivity |].
  assert (Hi : (i < id)%nat) by (apply (H i k d); left; reflexivity).
  replace (Nat.eqb i id) with false by (symmetry; apply Nat.eqb_neq; lia); simpl.
  rewrite IH; [reflexivity |].
  intros i' k' d' Hin; apply (H i' k' d'); right; exact Hin.
Qed.

Lemma start_scheduled : forall t h,
  Timer.start (t, h) =
    (Timer.mkTimer (Timer.isActive t) (Timer.isInterval t) (Some (S (Timer.last_id h)))
       (Timer.duration t),
     Timer.mkHost (S (Timer.last_id h))
       (Timer.scheduled h ++ [(S (Timer.last_id h), kind_of t, Timer.duration t)])%list).
Proof.
  intros t h; unfold Timer.start, kind_of; simpl.
  destruct (Timer.isInterval t); reflexivity.
Qed.

(** [start] followed by [cancel] unschedules what [start] scheduled, for a
    timeout as for an interval: the host's table is back to what it was. *)
Theorem timer_start_cancel :
  forall (t : Timer.Timer) (h : Timer.Host),
  host_fresh h ->
  Timer.scheduled (snd (Timer.cancel (Timer.start (t, h)))) = Timer.scheduled h.
Proof.
  intros t h Hf; rewrite start_scheduled.
  unfold Timer.cancel, Timer.cancelInterval, Timer.cancelTimer,
    Timer.clearInterval, Timer.clearTimeout, Timer.clear; simpl.
  destruct (Timer.isInterval t); simpl;
    rewrite filter_app; simpl; rewrite Nat.eqb_refl; simpl;
    rewrite app_nil_r; apply filter_keep_all;
    intros i k d Hin; specialize (Hf i k d Hin); lia.
Qed.

Lemma timer_start_cancel_witness :
  Timer.scheduled (snd (Timer.cancel (Timer.start (Timer.run, Timer.mkHost 0 [])))) = [].
Proof.
  apply (timer_start_cancel Timer.run (Timer.mkHost 0 [])).
  intros i k d [].
Defined.

(** [start] called twice before [cancel] leaks the first callback: [cancel]
    only clears the id stored by the last [start], so the callback scheduled
    by the first [start] stays scheduled. *)
Theorem timer_double_start_leaks :
  forall (t : Timer.Timer) (h : Timer.Host),
  host_fresh h ->
  Timer.scheduled (snd (Timer.cancel (Timer.start (Timer.start (t, h))))) =
    (Timer.scheduled h ++ [(S (Timer.last_id h), kind_of t, Timer.duration t)])%list.
Proof.
  intros t h Hf; rewrite start_scheduled; rewrite start_scheduled; simpl.
  unfold kind_of; simpl.
  unfold Timer.cancel, Timer.cancelInterval, Timer.cancelTimer,
    Timer.clearInterval, Timer.clearTimeout, Timer.clear; simpl.
  destruct (Timer.isInterval t); simpl;
    rewrite filter_app; simpl; rewrite Nat.eqb_refl; simpl;
    rewrite app_nil_r; apply filter_keep_all;
    intros i k d Hin; apply in_app_or in Hin; destruct Hin as [Hin | [E | []]];
    try (specialize (Hf i k d Hin); lia);
    inversion E; lia.
Qed.

Lemma timer_double_start_leaks_witness :
  Timer.scheduled (snd (Timer.cancel (Timer.start (Timer.start
    (Timer.run, Timer.mkHost 0 []))))) = [(1%nat, Timer.KTimeout, 0)].
Proof.
  apply (timer_double_start_leaks Timer.run (Timer.mkHost 0 [])).
  intros i k d [].
Defined.
